(** * rapid: the state-machine executor of [statemachine.go]

    A shallow embedding of [T.Repeat], [StateMachineActions],
    [stateMachine.executeAction] and [runAction], and the properties of the
    retry loop, of the panic classification and of the invariant check.

    Go panics are modelled by a result type, the trial context [*T] by
    explicit state passing, and the calls the executor makes to its
    collaborators are recorded in a call log that action bodies cannot
    touch. *)

From Stdlib Require Import ZArith List String Bool Arith Lia.
Import ListNotations.

Set Implicit Arguments.

(** ** Constants (statemachine.go, lines 15-19) *)

Definition actionLabel : string := "action".
Definition validActionTries : nat := 100.
Definition noValidActionsMsg : string :=
  "can't find a valid (non-skipped) action".

(** ** Panics

    The values a goroutine of the package panics with: [invalidData] (the
    recoverable "not applicable / invalid test case" signal), [stopTest] (a
    fatal failure of the trial), and anything else (a plain string from
    [assertf], a runtime error, a panic of user code). *)

Inductive panicValue : Type :=
| invalidData (msg : string)
| stopTest (msg : string)
| otherPanic (msg : string).

(** [_, ok := r.(invalidData)] *)
Definition isInvalidData (r : panicValue) : bool :=
  match r with
  | invalidData _ => true
  | _ => false
  end.

Inductive result (A : Type) : Type :=
| Ret (a : A)
| Panic (r : panicValue).

Arguments Ret {A} a.
Arguments Panic {A} r.

(** ** The entropy engine, as the executor sees it

    [bitStream] is an interface of the package; the executor only opens and
    closes labelled groups on it. *)

Class bitStream (BS : Type) : Type := {
  beginGroup : BS -> string -> bool -> Z * BS;
  endGroup : BS -> Z -> bool -> BS
}.

Section Executor.

(** [BS] is the engine behind [t.s]; [W] is the memory that the closures
    handed to [Repeat] capture (the system under test). *)
Context {BS : Type} `{bitStream BS} {W : Type}.

(** The trial context [*T]: the engine, the count of draws made so far
    and the failure accumulator ([""] when the trial has not failed). *)
Record T : Type := mkT {
  s : BS;
  draws : Z;
  failed : string;
  sut : W
}.

Definition set_s (t : T) (s' : BS) : T :=
  {| s := s'; draws := draws t; failed := failed t; sut := sut t |}.

(** A Go function that receives [*T]: it returns or panics, and leaves
    the context in some state either way. *)
Definition M (A : Type) : Type := T -> result A * T.

Definition ret {A : Type} (a : A) : M A := fun t => (Ret a, t).

Definition bind {A B : Type} (m : M A) (k : A -> M B) : M B :=
  fun t =>
    match m t with
    | (Ret a, t') => k a t'
    | (Panic r, t') => (Panic r, t')
    end.

Notation "x <- m ;; k" := (bind m (fun x => k))
  (at level 61, m at next level, right associativity).

(** Modelled from the spec: [T.failOnError] is not part of the file; the
    pending global-failure check surfaces the accumulated failure as a
    fatal [stopTest]. *)
Definition failOnError : M unit :=
  fun t =>
    if String.eqb (failed t) "" then (Ret tt, t)
    else (Panic (stopTest (failed t)), t).

(** statemachine.go, lines 63-70 *)
Record StateMachineAction : Type := mkAction {
  Name : string;
  Func : M unit
}.

Definition ActionName (sa : StateMachineAction) : string := Name sa.

(** A generator is used through its [Draw] method only. *)
Record Generator (V : Type) : Type := mkGenerator {
  Draw : T -> string -> result V * T
}.

(** statemachine.go, lines 102-104 *)
Record stateMachine : Type := mkSM {
  actions : Generator StateMachineAction
}.

(** ** runAction (statemachine.go, lines 125-141)

    The deferred function receives [t.draws] as evaluated when the
    [defer] statement runs, recovers an [invalidData] panic of the body
    into the named results and panics again with any other value. *)
Definition runAction (t : T) (action : StateMachineAction)
  : result (bool * bool) * T :=
  let draws0 := draws t in
  match (_ <- Func action ;; _ <- failOnError ;; ret (false, false)) t with
  | (Ret v, t') => (Ret v, t')
  | (Panic r, t') =>
      if isInvalidData r
      then (Ret (true, Z.eqb (draws t') draws0), t')
      else (Panic r, t')
  end.

(** ** The call log of the executor *)

Inductive call : Type :=
| CallBeginGroup (label : string) (standalone : bool) (i : Z)
| CallDraw (label : string) (r : result string)
| CallRunAction (name : string) (r : result (bool * bool))
| CallEndGroup (i : Z) (discard : bool).

Record run (A : Type) : Type := mkRun {
  outcome : result A;
  final : T;
  calls : list call
}.

Definition after {A : Type} (cs : list call) (o : run A) : run A :=
  {| outcome := outcome o; final := final o; calls := cs ++ calls o |}.

(** ** executeAction (statemachine.go, lines 106-123)

    [tries] is the number of iterations the [for] loop has left, that is
    [validActionTries - n]. *)
Fixpoint executeAction_loop (sm : stateMachine) (tries : nat) (t : T)
  : run bool :=
  match tries with
  | O =>
      {| outcome := Panic (stopTest noValidActionsMsg);
         final := t; calls := [] |}
  | S tries' =>
      let (i, s1) := beginGroup (s t) actionLabel false in
      let opened := [CallBeginGroup actionLabel false i] in
      match Draw (actions sm) (set_s t s1) "action" with
      | (Panic r, t2) =>
          {| outcome := Panic r; final := t2;
             calls := opened ++ [CallDraw "action" (Panic r)] |}
      | (Ret action, t2) =>
          let drawn := opened ++ [CallDraw "action" (Ret (Name action))] in
          match runAction t2 action with
          | (Panic r, t3) =>
              {| outcome := Panic r; final := t3;
                 calls := drawn ++ [CallRunAction (Name action) (Panic r)] |}
          | (Ret (invalid, skipped), t3) =>
              let t4 := set_s t3 (endGroup (s t3) i false) in
              let closed :=
                drawn ++ [CallRunAction (Name action) (Ret (invalid, skipped));
                          CallEndGroup i false] in
              if skipped
              then after closed (executeAction_loop sm tries' t4)
              else {| outcome := Ret (negb invalid); final := t4;
                      calls := closed |}
          end
      end
  end.

Definition executeAction (sm : stateMachine) (t : T) : run bool :=
  executeAction_loop sm validActionTries t.


(** ** Repeat (statemachine.go, lines 29-57)

    [flags.steps] and [testing.Short()] are read from the environment of
    the test binary. *)
Record config : Type := mkConfig {
  flags_steps : Z;
  testing_Short : bool
}.

(** [newRepeat], [repeat.more] and [repeat.reject] belong to another file
    of the package; [R] is the type of the [repeat] value.  The third
    argument of [newRepeat] is the integer [steps] that the source converts
    with [float64(steps)]. *)
Class repeatOps (R : Type) : Type := {
  newRepeat : Z -> Z -> Z -> string -> R;
  more : R -> BS -> result bool * R * BS;
  reject : R -> result unit * R
}.

Context {R : Type} `{repeatOps R}.

(** What the driver does, in order: the [steps] handed to [newRepeat], a
    call of [check], the answer of [repeat.more], a step of the executor
    with its call log and result, a call of [repeat.reject]. *)
Inductive event : Type :=
| EvNewRepeat (minCount maxCount steps : Z) (label : string)
| EvCheck
| EvMore (r : result bool)
| EvStep (cs : list call) (r : result bool)
| EvReject.

(** [verdict] is [None] when the loop was still running after the number
    of iterations the model was given. *)
Record trial : Type := mkTrial {
  verdict : option (result unit);
  tfinal : T;
  events : list event
}.

Definition later (evs : list event) (tr : trial) : trial :=
  {| verdict := verdict tr; tfinal := tfinal tr;
     events := evs ++ events tr |}.

(** [if check != nil { check(t) }; t.failOnError()] *)
Definition checkThenFailOnError (check : option (M unit)) (t : T)
  : result unit * T * list event :=
  match check with
  | Some c =>
      match c t with
      | (Ret _, t') => (failOnError t', [EvCheck])
      | (Panic r, t') => (Panic r, t', [EvCheck])
      end
  | None => (failOnError t, [])
  end.

Fixpoint Repeat_loop (sm : stateMachine) (check : option (M unit))
  (fuel : nat) (repeat_ : R) (t : T) : trial :=
  match fuel with
  | O => {| verdict := None; tfinal := t; events := [] |}
  | S fuel' =>
      match more repeat_ (s t) with
      | (Panic r, _, s1) =>
          {| verdict := Some (Panic r); tfinal := set_s t s1;
             events := [EvMore (Panic r)] |}
      | (Ret false, _, s1) =>
          {| verdict := Some (Ret tt); tfinal := set_s t s1;
             events := [EvMore (Ret false)] |}
      | (Ret true, repeat1, s1) =>
          let o := executeAction sm (set_s t s1) in
          let stepped := [EvMore (Ret true); EvStep (calls o) (outcome o)] in
          match outcome o with
          | Panic r =>
              {| verdict := Some (Panic r); tfinal := final o;
                 events := stepped |}
          | Ret true =>
              match checkThenFailOnError check (final o) with
              | (Panic r, t', evs) =>
                  {| verdict := Some (Panic r); tfinal := t';
                     events := stepped ++ evs |}
              | (Ret _, t', evs) =>
                  later (stepped ++ evs)
                        (Repeat_loop sm check fuel' repeat1 t')
              end
          | Ret false =>
              match reject repeat1 with
              | (Panic r, _) =>
                  {| verdict := Some (Panic r); tfinal := final o;
                     events := stepped ++ [EvReject] |}
              | (Ret _, repeat2) =>
                  later (stepped ++ [EvReject])
                        (Repeat_loop sm check fuel' repeat2 (final o))
              end
          end
      end
  end.

Definition Repeat (fuel : nat) (cfg : config)
  (actions : Generator StateMachineAction) (check : option (M unit)) (t : T)
  : trial :=
  let steps := flags_steps cfg in
  let steps := if testing_Short cfg then Z.quot steps 2 else steps in
  let repeat_ := newRepeat (-1) (-1) steps "Repeat" in
  let sm := {| actions := actions |} in
  let started := [EvNewRepeat (-1) (-1) steps "Repeat"] in
  match checkThenFailOnError check t with
  | (Panic r, t', evs) =>
      {| verdict := Some (Panic r); tfinal := t'; events := started ++ evs |}
  | (Ret _, t', evs) =>
      later (started ++ evs) (Repeat_loop sm check fuel repeat_ t')
  end.

(** ** StateMachineActions (statemachine.go, lines 76-100)

    What reflection shows of the argument: the printed name of its type
    and its exported methods in the order of [Type.Method(i)].  A method
    value has either the dynamic type [func(t *T)] or another function
    type, of which only the printed form is kept. *)
Inductive methodValue : Type :=
| FuncOfT (m : M unit)
| FuncOther (typ : string).

Record method : Type := mkMethod {
  methodName : string;
  methodFunc : methodValue
}.

Record object : Type := mkObject {
  typeName : string;
  methods : list method
}.

(** [m, ok := v.Method(i).Interface().(func(t *T))] *)
Definition asAction (mv : methodValue) : option (M unit) :=
  match mv with
  | FuncOfT m => Some m
  | FuncOther _ => None
  end.

(** Modelled from the spec: [assertf] is not part of the file; a failed
    assertion rejects the configuration with a panic that carries the
    formatted message. *)
Definition assertf (ok : bool) (msg : string) : result unit :=
  if ok then Ret tt else Panic (otherPanic msg).

(** The generator of [SampledFrom] belongs to another file. *)
Variable SampledFrom : list StateMachineAction -> Generator StateMachineAction.

(** The [for i := 0; i < n; i++] loop with [k = n - i] iterations left. *)
Fixpoint collectActions (v : object) (k i : nat)
  (actions : list StateMachineAction) : list StateMachineAction :=
  match k with
  | O => actions
  | S k' =>
      match nth_error (methods v) i with
      | None => actions
      | Some mi =>
          let name := methodName mi in
          match asAction (methodFunc mi) with
          | Some m =>
              collectActions v k' (S i)
                (actions ++ [{| Name := name; Func := m |}])
          | None => collectActions v k' (S i) actions
          end
      end
  end.

(** [sm] is [None] for the nil interface, on which [reflect.Value.Type]
    panics. *)
Definition StateMachineActions (sm : option object)
  : result (Generator StateMachineAction) :=
  match sm with
  | None => Panic (otherPanic "reflect: call of reflect.Value.Type on zero Value")
  | Some v =>
      let n := List.length (methods v) in
      let actions := collectActions v n 0 [] in
      match assertf (0 <? List.length actions)%nat
              ("state machine of type " ++ typeName v
               ++ " has no actions specified")%string with
      | Panic r => Panic r
      | Ret _ => Ret (SampledFrom actions)
      end
  end.

End Executor.

(** ** Reading a call log *)

Definition isBeginGroup (c : call) : bool :=
  match c with
  | CallBeginGroup _ _ _ => true
  | _ => false
  end.

(** An attempt is one iteration of the loop of [executeAction]; each opens
    one group. *)
Definition attempts (cs : list call) : nat :=
  List.length (filter isBeginGroup cs).

(** [runAction] returned [invalid = true, skipped = true]: the action
    signalled that it does not apply and the draw counter had not moved. *)
Definition isFreeSkip (c : call) : bool :=
  match c with
  | CallRunAction _ (Ret (true, true)) => true
  | _ => false
  end.

(** [runAction] returned [invalid = true, skipped = false]: the action
    signalled that it does not apply after draws were made. *)
Definition isCostlySkip (c : call) : bool :=
  match c with
  | CallRunAction _ (Ret (true, false)) => true
  | _ => false
  end.

(** [runAction] returned [false, false]: the action ran to completion. *)
Definition isCompletion (c : call) : bool :=
  match c with
  | CallRunAction _ (Ret (false, false)) => true
  | _ => false
  end.

Definition freeSkips (cs : list call) : nat :=
  List.length (filter isFreeSkip cs).

Definition costlySkips (cs : list call) : nat :=
  List.length (filter isCostlySkip cs).

Definition completions (cs : list call) : nat :=
  List.length (filter isCompletion cs).


(** ** Reading the events of a trial *)

(** The number of calls of [check] before the first step of [evs]. *)
Fixpoint checksBeforeStep (evs : list event) : nat :=
  match evs with
  | [] => 0
  | EvStep _ _ :: _ => 0
  | EvCheck :: evs' => S (checksBeforeStep evs')
  | _ :: evs' => checksBeforeStep evs'
  end.

(** For every step of [evs], in order: its result and the number of calls
    of [check] between it and the next step. *)
Fixpoint checksAfterSteps (evs : list event) : list (result bool * nat) :=
  match evs with
  | [] => []
  | EvStep _ r :: evs' => (r, checksBeforeStep evs') :: checksAfterSteps evs'
  | _ :: evs' => checksAfterSteps evs'
  end.

(** What the invariant check owes a step: one call after a step that
    returned [true], none after a rejected or a fatal one. *)
Definition checksOwed (r : result bool) : nat :=
  match r with
  | Ret true => 1
  | _ => 0
  end.

(** ** The shape of the call log of one step

    The calls of one attempt, by the way the attempt ends. *)

Definition skippedAttempt (i : Z) (name : string) : list call :=
  [CallBeginGroup actionLabel false i; CallDraw "action" (Ret name);
   CallRunAction name (Ret (true, true)); CallEndGroup i false].

Definition decidedAttempt (i : Z) (name : string) (invalid : bool)
  : list call :=
  [CallBeginGroup actionLabel false i; CallDraw "action" (Ret name);
   CallRunAction name (Ret (invalid, false)); CallEndGroup i false].

Definition fatalAttempt (i : Z) (name : string) (r : panicValue)
  : list call :=
  [CallBeginGroup actionLabel false i; CallDraw "action" (Ret name);
   CallRunAction name (Panic r)].

Definition failedDraw (i : Z) (r : panicValue) : list call :=
  [CallBeginGroup actionLabel false i; CallDraw "action" (Panic r)].

(** [stepShape tries cs r]: with [tries] iterations left, the loop of
    [executeAction] may make the calls [cs] and end with [r]. *)
Inductive stepShape : nat -> list call -> result bool -> Prop :=
| shape_exhausted :
    stepShape 0 [] (Panic (stopTest noValidActionsMsg))
| shape_skipped tries i name cs r :
    stepShape tries cs r ->
    stepShape (S tries) (skippedAttempt i name ++ cs) r
| shape_decided tries i name invalid :
    stepShape (S tries) (decidedAttempt i name invalid) (Ret (negb invalid))
| shape_fatal tries i name r :
    isInvalidData r = false ->
    stepShape (S tries) (fatalAttempt i name r) (Panic r)
| shape_failedDraw tries i r :
    stepShape (S tries) (failedDraw i r) (Panic r).


Section Specifications.

Context {BS W : Type}.

(** The four ways [runAction] ends, by what the body did. *)
Inductive runActionSpec (t : @T BS W) (a : @StateMachineAction BS W) : result (bool * bool) * @T BS W -> Prop :=
| ran_completed t1 :
    Func a t = (Ret tt, t1) -> failed t1 = ""%string ->
    runActionSpec t a (Ret (false, false), t1)
| ran_failed t1 :
    Func a t = (Ret tt, t1) -> failed t1 <> ""%string ->
    runActionSpec t a (Panic (stopTest (failed t1)), t1)
| ran_invalid msg t1 :
    Func a t = (Panic (invalidData msg), t1) ->
    runActionSpec t a (Ret (true, Z.eqb (draws t1) (draws t)), t1)
| ran_fatal r t1 :
    Func a t = (Panic r, t1) -> isInvalidData r = false ->
    runActionSpec t a (Panic r, t1).

(** The catalog in the words of the claim: the methods whose value has the
    action signature, in method order, each as an action. *)
Definition hasActionSignature (m : method (BS := BS) (W := W)) : bool :=
  match methodFunc m with
  | FuncOfT _ => true
  | FuncOther _ => false
  end.

Fixpoint actionsOf (ms : list (method (BS := BS) (W := W)))
  : list (@StateMachineAction BS W) :=
  match ms with
  | [] => []
  | m :: ms' =>
      match methodFunc m with
      | FuncOfT f => {| Name := methodName m; Func := f |} :: actionsOf ms'
      | FuncOther _ => actionsOf ms'
      end
  end.

Definition methodOf (a : @StateMachineAction BS W) : method :=
  {| methodName := Name a; methodFunc := FuncOfT (Func a) |}.

(** [check != nil] *)
Definition hasCheck (check : option (@M BS W unit)) : bool :=
  match check with
  | Some _ => true
  | None => false
  end.

End Specifications.

(** ** A small engine to run the executor on

    The entropy is a tape of numbers; the stream counts the groups it
    opened and keeps the handles of those not yet closed. *)
Record tape : Type := mkTape {
  bits : list nat;
  begun : Z;
  unclosed : list Z
}.

#[export] Instance tape_bitStream : bitStream tape := {
  beginGroup := fun st _ _ =>
    (begun st,
     {| bits := bits st; begun := begun st + 1;
        unclosed := begun st :: unclosed st |});
  endGroup := fun st i _ =>
    {| bits := bits st; begun := begun st;
       unclosed := List.remove Z.eq_dec i (unclosed st) |}
}.

(** A driver that continues until [steps] steps were accepted. *)
Record counter : Type := mkCounter {
  count : Z;
  wanted : Z
}.

#[export] Instance counter_repeatOps : repeatOps (BS := tape) counter := {
  newRepeat := fun _ _ steps _ => {| count := 0; wanted := steps |};
  more := fun r st =>
    if Z.ltb (count r) (wanted r)
    then (Ret true, {| count := count r + 1; wanted := wanted r |}, st)
    else (Ret false, r, st);
  reject := fun r => (Ret tt, {| count := count r - 1; wanted := wanted r |})
}.

(** The system under test of the examples is a counter. *)
Definition ctx : Type := T (BS := tape) (W := nat).

(** One draw: takes a number off the tape and counts it. *)
Definition drawBit (t : ctx) : result nat * ctx :=
  match bits (s t) with
  | [] => (Panic (invalidData "overrun"), t)
  | b :: rest =>
      (Ret b,
       {| s := {| bits := rest; begun := begun (s t);
                  unclosed := unclosed (s t) |};
          draws := draws t + 1; failed := failed t; sut := sut t |})
  end.

(** Picks the action at the drawn index, modulo the size of the slice. *)
Definition sampledFrom (slice : list (StateMachineAction (BS := tape) (W := nat)))
  : Generator (BS := tape) (W := nat) StateMachineAction :=
  {| Draw := fun t _ =>
       match drawBit t with
       | (Panic r, t') => (Panic r, t')
       | (Ret b, t') =>
           match nth_error slice (b mod List.length slice) with
           | Some a => (Ret a, t')
           | None => (Panic (otherPanic "empty slice"), t')
           end
       end |}.

(** Completes: adds one to the counter under test. *)
Definition incr : StateMachineAction (BS := tape) (W := nat) :=
  {| Name := "Incr";
     Func := fun t =>
       (Ret tt, {| s := s t; draws := draws t; failed := failed t;
                   sut := S (sut t) |}) |}.

(** Signals at once that it does not apply. *)
Definition skipNow : StateMachineAction (BS := tape) (W := nat) :=
  {| Name := "SkipNow";
     Func := fun t => (Panic (invalidData "skip"), t) |}.

(** Makes one draw, then signals that it does not apply. *)
Definition drawThenSkip : StateMachineAction (BS := tape) (W := nat) :=
  {| Name := "DrawThenSkip";
     Func := fun t =>
       match drawBit t with
       | (Panic r, t') => (Panic r, t')
       | (Ret _, t') => (Panic (invalidData "skip"), t')
       end |}.

(** Fails an assertion of its own with a fatal panic. *)
Definition fatalNow : StateMachineAction (BS := tape) (W := nat) :=
  {| Name := "FatalNow";
     Func := fun t => (Panic (stopTest "boom"), t) |}.

Definition freshTape (n : nat) : tape :=
  {| bits := List.repeat 0%nat n; begun := 0; unclosed := [] |}.

Definition freshCtx (n : nat) : ctx :=
  {| s := freshTape n; draws := 0; failed := ""; sut := 0%nat |}.

Definition ctxOn (l : list nat) : ctx :=
  {| s := {| bits := l; begun := 0; unclosed := [] |};
     draws := 0; failed := ""; sut := 0%nat |}.

Definition skipOnly : stateMachine (BS := tape) (W := nat) :=
  {| actions := sampledFrom [skipNow] |}.

Definition drawThenSkipOnly : stateMachine (BS := tape) (W := nat) :=
  {| actions := sampledFrom [drawThenSkip] |}.

Definition fatalOnly : stateMachine (BS := tape) (W := nat) :=
  {| actions := sampledFrom [fatalNow] |}.

Definition skipOrIncr : stateMachine (BS := tape) (W := nat) :=
  {| actions := sampledFrom [skipNow; incr] |}.

(** A state machine type with two actions and a getter, and one with
    no method of the action signature. *)
Definition counterMachine : object (BS := tape) (W := nat) :=
  {| typeName := "*main.counterMachine";
     methods := [ {| methodName := "Get"; methodFunc := FuncOther "func() int" |};
                  {| methodName := "Incr"; methodFunc := FuncOfT (Func incr) |};
                  {| methodName := "SkipNow";
                     methodFunc := FuncOfT (Func skipNow) |} ] |}.

Definition getterOnly : object (BS := tape) (W := nat) :=
  {| typeName := "*main.getterOnly";
     methods := [ {| methodName := "Get";
                     methodFunc := FuncOther "func() int" |} ] |}.

(** A check that fails once the counter under test exceeds [bound]. *)
Definition atMost (bound : nat) : M (BS := tape) (W := nat) unit :=
  fun t =>
    if (sut t <=? bound)%nat then (Ret tt, t)
    else (Panic (stopTest "invariant"), t).

(** ** More readers of the logs *)





(** The events of one call of [check], when there is a check function. *)
Definition checkEvents (checked : bool) : list event :=
  if checked then [EvCheck] else [].

(** [loopShape checked evs v]: the loop of [Repeat] may log [evs] and end
    with the verdict [v]. *)
Inductive loopShape (checked : bool)
  : list event -> option (result unit) -> Prop :=
| loop_running :
    loopShape checked [] None
| loop_more_panicked r :
    loopShape checked [EvMore (Panic r)] (Some (Panic r))
| loop_declined :
    loopShape checked [EvMore (Ret false)] (Some (Ret tt))
| loop_step_panicked cs r :
    loopShape checked [EvMore (Ret true); EvStep cs (Panic r)]
              (Some (Panic r))
| loop_step_accepted cs evs v :
    loopShape checked evs v ->
    loopShape checked
      ([EvMore (Ret true); EvStep cs (Ret true)]
         ++ checkEvents checked ++ evs) v
| loop_check_panicked cs r :
    loopShape checked
      ([EvMore (Ret true); EvStep cs (Ret true)] ++ checkEvents checked)
      (Some (Panic r))
| loop_step_rejected cs evs v :
    loopShape checked evs v ->
    loopShape checked
      ([EvMore (Ret true); EvStep cs (Ret false); EvReject] ++ evs) v
| loop_reject_panicked cs r :
    loopShape checked [EvMore (Ret true); EvStep cs (Ret false); EvReject]
              (Some (Panic r)).

Definition isDraw (c : call) : bool :=
  match c with
  | CallDraw _ _ => true
  | _ => false
  end.

Definition isEndGroup (c : call) : bool :=
  match c with
  | CallEndGroup _ _ => true
  | _ => false
  end.

Definition drawCalls (cs : list call) : nat :=
  List.length (filter isDraw cs).

Definition endCalls (cs : list call) : nat :=
  List.length (filter isEndGroup cs).

(** The steps of a trial for which [executeAction] returned [true]. *)
Definition isAccepted (e : event) : bool :=
  match e with
  | EvStep _ (Ret true) => true
  | _ => false
  end.

Definition acceptedSteps (evs : list event) : nat :=
  List.length (filter isAccepted evs).

(** ** More inputs for the small engine *)

(** A check that records a failure in the context and returns, as a call
    of an error-reporting method that does not stop the goroutine. *)
Definition recordFailure : M (BS := tape) (W := nat) unit :=
  fun t =>
    (Ret tt, {| s := s t; draws := draws t; failed := "bad state";
                sut := sut t |}).

(** A check that counts its calls in the counter under test. *)
Definition tick : M (BS := tape) (W := nat) unit :=
  fun t =>
    (Ret tt, {| s := s t; draws := draws t; failed := failed t;
                sut := S (sut t) |}).

(** An action that completes and changes nothing. *)
Definition noop : StateMachineAction (BS := tape) (W := nat) :=
  {| Name := "Noop"; Func := fun t => (Ret tt, t) |}.

Definition noopOrSkips
  : Generator (BS := tape) (W := nat) StateMachineAction :=
  sampledFrom [noop; skipNow; drawThenSkip].

Definition noopOrSkip : stateMachine (BS := tape) (W := nat) :=
  {| actions := sampledFrom [noop; skipNow] |}.

(** Tapes that make [noopOrSkips] yield a skip, a completion, a
    rejection and a completion, and [noopOrSkip] three skips and a
    completion. *)
Definition mixedCtx : ctx := ctxOn [1; 0; 2; 0; 0; 0].

Definition skipsThenNoopCtx : ctx := ctxOn [1; 1; 1; 0].

(** An action that completes after recording a failure. *)
Definition failSoft : StateMachineAction (BS := tape) (W := nat) :=
  {| Name := "FailSoft"; Func := recordFailure |}.

Definition failSoftOnly : stateMachine (BS := tape) (W := nat) :=
  {| actions := sampledFrom [failSoft] |}.

Definition incrOnly : stateMachine (BS := tape) (W := nat) :=
  {| actions := sampledFrom [incr] |}.

(** [counterMachine] without its getter and with one more method of
    another signature. *)
Definition counterMachineOther : object (BS := tape) (W := nat) :=
  {| typeName := "*main.counterMachine";
     methods := [ {| methodName := "Incr"; methodFunc := FuncOfT (Func incr) |};
                  {| methodName := "Reset";
                     methodFunc := FuncOther "func(int) error" |};
                  {| methodName := "SkipNow";
                     methodFunc := FuncOfT (Func skipNow) |} ] |}.

(** * Properties *)

Section ExecutorFacts.

Context {BS : Type} `{bitStream BS} {W : Type}.
Context {R : Type} `{repeatOps (BS := BS) R}.
Variable SampledFrom :
  list (@StateMachineAction BS W)
  -> @Generator BS W (@StateMachineAction BS W).

Implicit Types (t : @T BS W) (sm : @stateMachine BS W).
Implicit Types (action a : @StateMachineAction BS W).

(** ** runAction *)

Lemma failOnError_cases t :
  (failed t = ""%string /\ failOnError t = (Ret tt, t))
  \/ (failed t <> ""%string /\ failOnError t = (Panic (stopTest (failed t)), t)).
Proof.
  unfold failOnError.
  destruct (String.eqb_spec (failed t) ""); [left | right]; split; auto.
Qed.

Lemma runActionP t a : runActionSpec t a (runAction t a).
Proof.
  unfold runAction, bind, ret.
  destruct (Func a t) as [[[]|r] t1] eqn:E.
  - destruct (failOnError_cases t1) as [[F ->]|[F ->]]; cbn.
    + now apply ran_completed.
    + now apply ran_failed.
  - destruct r as [msg|msg|msg]; cbn.
    + now apply ran_invalid with (msg := msg).
    + now apply ran_fatal.
    + now apply ran_fatal.
Qed.

Lemma runAction_skipped_invalid t a invalid t' :
  runAction t a = (Ret (invalid, true), t') -> invalid = true.
Proof.
  intros E. pose proof (runActionP t a) as P. rewrite E in P.
  inversion P; reflexivity.
Qed.

Lemma runAction_panic_fatal t a r t' :
  runAction t a = (Panic r, t') -> isInvalidData r = false.
Proof.
  intros E. pose proof (runActionP t a) as P. rewrite E in P.
  inversion P; auto.
Qed.

(** ** The loop of executeAction *)

Lemma executeAction_loop_shape sm tries t :
  stepShape tries (calls (executeAction_loop sm tries t))
                  (outcome (executeAction_loop sm tries t)).
Proof.
  revert t; induction tries as [|tries IH]; intro t; cbn [executeAction_loop].
  - constructor.
  - destruct (beginGroup (s t) actionLabel false) as [i s1].
    destruct (Draw (actions sm) (set_s t s1) "action") as [[a|r] t2].
    + destruct (runAction t2 a) as [[[invalid skipped]|r] t3] eqn:E.
      * destruct skipped.
        -- apply runAction_skipped_invalid in E as ->.
           apply (shape_skipped i (Name a) (IH _)).
        -- apply shape_decided.
      * apply shape_fatal. now apply runAction_panic_fatal in E.
    + apply shape_failedDraw.
Qed.

Lemma executeAction_shape sm t :
  stepShape validActionTries (calls (executeAction sm t))
                             (outcome (executeAction sm t)).
Proof. apply executeAction_loop_shape. Qed.

Lemma freeSkips_skipped i name cs :
  freeSkips (skippedAttempt i name ++ cs) = S (freeSkips cs).
Proof. reflexivity. Qed.

Lemma attempts_skipped i name cs :
  attempts (skippedAttempt i name ++ cs) = S (attempts cs).
Proof. reflexivity. Qed.

Lemma costlySkips_skipped i name cs :
  costlySkips (skippedAttempt i name ++ cs) = costlySkips cs.
Proof. reflexivity. Qed.



Lemma shape_counts tries cs r :
  stepShape tries cs r ->
  freeSkips cs <= tries
  /\ attempts cs <= tries
  /\ (freeSkips cs = tries ->
      r = Panic (stopTest noValidActionsMsg) /\ attempts cs = tries)
  /\ (freeSkips cs < tries -> attempts cs = S (freeSkips cs)).
Proof.
  induction 1 as [|tries i name cs r _ (IH1 & IH2 & IH3 & IH4)
                  |tries i name [|]|tries i name r _|tries i r].
  - cbn. split; [lia|split; [lia|split]]; [auto|lia].
  - rewrite freeSkips_skipped, attempts_skipped.
    split; [lia|split; [lia|split]].
    + intros E. destruct IH3 as [-> ->]; auto.
    + intros L. rewrite IH4; lia.
  - cbn. split; [lia|split; [lia|split]]; [discriminate|reflexivity].
  - cbn. split; [lia|split; [lia|split]]; [discriminate|reflexivity].
  - cbn. split; [lia|split; [lia|split]]; [discriminate|reflexivity].
  - cbn. split; [lia|split; [lia|split]]; [discriminate|reflexivity].
Qed.

Lemma shape_costly tries cs r :
  stepShape tries cs r ->
  costlySkips cs <= 1
  /\ (costlySkips cs = 1 <-> r = Ret false)
  /\ (forall p, r = Panic p -> costlySkips cs = 0).
Proof.
  induction 1 as [|tries i name cs r _ IH
                  |tries i name [|]|tries i name r _|tries i r].
  - cbn. split; [lia|split; [split|]]; [discriminate|discriminate|auto].
  - now rewrite costlySkips_skipped.
  - cbn. split; [lia|split; [split|]]; [reflexivity|reflexivity|discriminate].
  - cbn. split; [lia|split; [split|]]; [discriminate|discriminate|discriminate].
  - cbn. split; [lia|split; [split|]]; [discriminate|discriminate|auto].
  - cbn. split; [lia|split; [split|]]; [discriminate|discriminate|auto].
Qed.





Lemma runAction_invalidData t a msg t' :
  Func a t = (Panic (invalidData msg), t') ->
  runAction t a = (Ret (true, Z.eqb (draws t') (draws t)), t').
Proof. intros E. unfold runAction, bind. now rewrite E. Qed.


(** ** The claims about runAction and executeAction *)

(** C9. When [runAction] returns, [skipped] implies [invalid], so the pair
    [invalid = false, skipped = true] does not occur; and [skipped] holds
    exactly when the body of the action panicked with [invalidData] while
    the draw counter of the trial had the value it had when the action
    started. *)
Theorem runAction_classification t a invalid skipped t' :
  runAction t a = (Ret (invalid, skipped), t') ->
  (skipped = true -> invalid = true)
  /\ (invalid, skipped) <> (false, true)
  /\ (skipped = true <->
      (exists msg, Func a t = (Panic (invalidData msg), t'))
      /\ draws t' = draws t).
Proof.
  intros E. pose proof (runActionP t a) as P. rewrite E in P.
  inversion P as [t1 F1 F2|t1 F1 F2|msg t1 F1|r t1 F1 F2]; subst.
  - split; [discriminate|split; [discriminate|split]].
    + discriminate.
    + intros [[msg F] _]. rewrite F in F1. discriminate.
  - split; [reflexivity|split].
    + intros C; inversion C.
    + rewrite Z.eqb_eq. split.
      * intros D; split; [now exists msg|exact D].
      * now intros [_ D].
Qed.

(** C1, as amended.  An attempt whose action signals that it does not
    apply while the draw counter has not moved is retried, and it uses up
    one of the [validActionTries] iterations of the loop: the loop goes on
    with one iteration fewer.  So a step makes at most 100 attempts, 100
    such attempts in a row end it with the no-valid-action panic, and with
    fewer the step is decided by one further attempt. *)
Theorem free_skip_counts_against_tries sm :
  (forall tries t i s1 a t2 msg t3,
      beginGroup (s t) actionLabel false = (i, s1) ->
      Draw (actions sm) (set_s t s1) "action" = (Ret a, t2) ->
      Func a t2 = (Panic (invalidData msg), t3) ->
      draws t3 = draws t2 ->
      executeAction_loop sm (S tries) t =
      after (skippedAttempt i (Name a))
            (executeAction_loop sm tries
               (set_s t3 (endGroup (s t3) i false))))
  /\ (forall t,
        freeSkips (calls (executeAction sm t)) <= validActionTries
        /\ attempts (calls (executeAction sm t)) <= validActionTries
        /\ (freeSkips (calls (executeAction sm t)) = validActionTries ->
            outcome (executeAction sm t)
            = Panic (stopTest noValidActionsMsg)
            /\ attempts (calls (executeAction sm t)) = validActionTries)
        /\ (freeSkips (calls (executeAction sm t)) < validActionTries ->
            attempts (calls (executeAction sm t))
            = S (freeSkips (calls (executeAction sm t))))).
Proof.
  split.
  - intros tries t i s1 a t2 msg t3 B D F E.
    cbn [executeAction_loop]. rewrite B, D.
    rewrite (runAction_invalidData _ _ F), E, Z.eqb_refl. reflexivity.
  - intros t. exact (shape_counts (executeAction_shape sm t)).
Qed.

(** C2, as amended.  An attempt whose action signals that it does not
    apply after the draw counter has moved ends the step at once:
    [executeAction] closes the group and returns [false], for the driver
    to reject the step.  A step has at most one such attempt, it has one
    exactly when it returns [false], and a step that panics has none. *)
Theorem costly_skip_rejects_step sm :
  (forall tries t i s1 a t2 msg t3,
      beginGroup (s t) actionLabel false = (i, s1) ->
      Draw (actions sm) (set_s t s1) "action" = (Ret a, t2) ->
      Func a t2 = (Panic (invalidData msg), t3) ->
      draws t3 <> draws t2 ->
      executeAction_loop sm (S tries) t =
      {| outcome := Ret false;
         final := set_s t3 (endGroup (s t3) i false);
         calls := decidedAttempt i (Name a) true |})
  /\ (forall t,
        costlySkips (calls (executeAction sm t)) <= 1
        /\ (costlySkips (calls (executeAction sm t)) = 1 <->
            outcome (executeAction sm t) = Ret false)
        /\ (forall p, outcome (executeAction sm t) = Panic p ->
                      costlySkips (calls (executeAction sm t)) = 0)).
Proof.
  split.
  - intros tries t i s1 a t2 msg t3 B D F E.
    cbn [executeAction_loop]. rewrite B, D.
    rewrite (runAction_invalidData _ _ F).
    apply Z.eqb_neq in E. rewrite E. reflexivity.
  - intros t. exact (shape_costly (executeAction_shape sm t)).
Qed.



(** ** The driver *)

Lemma checkThenFailOnError_events check t :
  snd (checkThenFailOnError check t)
  = match check with Some _ => [EvCheck] | None => [] end.
Proof.
  unfold checkThenFailOnError. destruct check as [c|]; [|reflexivity].
  now destruct (c t) as [[[]|r] t'].
Qed.

Lemma Repeat_loop_checks sm c fuel :
  forall (r : R) t,
    checksBeforeStep (events (Repeat_loop sm (Some c) fuel r t)) = 0
    /\ Forall (fun p => snd p = checksOwed (fst p))
         (checksAfterSteps (events (Repeat_loop sm (Some c) fuel r t))).
Proof.
  induction fuel as [|fuel IH]; intros r t; cbn [Repeat_loop].
  - cbn; auto.
  - destruct (more r (s t)) as [[[[|]|p] r1] s1];
      [|cbn; auto|cbn; auto].
    generalize (executeAction sm (set_s t s1)); intros o.
    destruct (outcome o) as [[|]|p] eqn:E.
    + pose proof (checkThenFailOnError_events (Some c) (final o)) as Q.
      destruct (checkThenFailOnError (Some c) (final o))
        as [[[[]|p] t'] evs]; cbn in Q; subst evs; cbn.
      * destruct (IH r1 t') as [B A].
        split; [reflexivity|]. constructor; [cbn; now rewrite B|exact A].
      * split; [reflexivity|]. constructor; [reflexivity|constructor].
    + destruct (reject r1) as [[[]|p] r2]; cbn.
      * destruct (IH r2 (final o)) as [B A].
        split; [reflexivity|]. constructor; [cbn; exact B|exact A].
      * split; [reflexivity|]. constructor; [reflexivity|constructor].
    + cbn. split; [reflexivity|]. constructor; [reflexivity|constructor].
Qed.



(** ** Quantities of the context that the calls advance *)

Lemma runAction_state t a : snd (runAction t a) = snd (Func a t).
Proof.
  unfold runAction, bind, ret.
  destruct (Func a t) as [[[]|r] t1]; cbn.
  - now destruct (failOnError_cases t1) as [[_ ->]|[_ ->]].
  - now destruct (isInvalidData r).
Qed.

(** A quantity [mu] of the context that every [beginGroup], [Draw] and
    [endGroup] advances by [wb], [wd] and [we], and that the bodies of
    the actions of the generator leave alone, advances over a step by
    these amounts times the numbers of the calls in the log. *)
Lemma executeAction_loop_measure sm (mu : @T BS W -> Z) (wb wd we : Z) :
  (forall t l b, mu (set_s t (snd (beginGroup (s t) l b))) = (mu t + wb)%Z) ->
  (forall t l, mu (snd (Draw (actions sm) t l)) = (mu t + wd)%Z) ->
  (forall t l a t', Draw (actions sm) t l = (Ret a, t') ->
                    forall u, mu (snd (Func a u)) = mu u) ->
  (forall t i d, mu (set_s t (endGroup (s t) i d)) = (mu t + we)%Z) ->
  forall tries t,
    mu (final (executeAction_loop sm tries t))
    = (mu t
       + wb * Z.of_nat (attempts (calls (executeAction_loop sm tries t)))
       + wd * Z.of_nat (drawCalls (calls (executeAction_loop sm tries t)))
       + we * Z.of_nat (endCalls (calls (executeAction_loop sm tries t))))%Z.
Proof.
  intros Hb Hd Ha He.
  induction tries as [|tries IH]; intros t; cbn [executeAction_loop].
  - cbn. lia.
  - pose proof (Hb t actionLabel false) as Pb.
    destruct (beginGroup (s t) actionLabel false) as [i s1]; cbn in Pb.
    pose proof (Hd (set_s t s1) "action"%string) as Pd.
    pose proof (Ha (set_s t s1) "action"%string) as Pa.
    destruct (Draw (actions sm) (set_s t s1) "action") as [[a|r] t2];
      cbn in Pd.
    + specialize (Pa a t2 eq_refl t2).
      rewrite <- runAction_state in Pa.
      destruct (runAction t2 a) as [[[invalid skipped]|r] t3]; cbn in Pa.
      * pose proof (He t3 i false) as Pe.
        destruct skipped.
        -- cbn [after final calls]. rewrite IH.
           unfold attempts, drawCalls, endCalls.
           rewrite !filter_app, !length_app. cbn. lia.
        -- cbn. lia.
      * cbn. lia.
    + cbn. lia.
Qed.

Lemma executeAction_measure_kept sm (mu : @T BS W -> Z) :
  (forall t s', mu (set_s t s') = mu t) ->
  (forall t l, mu (snd (Draw (actions sm) t l)) = mu t) ->
  (forall t l a t', Draw (actions sm) t l = (Ret a, t') ->
                    forall u, mu (snd (Func a u)) = mu u) ->
  forall t, mu (final (executeAction sm t)) = mu t.
Proof.
  intros Hs Hd Ha t. unfold executeAction.
  rewrite (@executeAction_loop_measure sm mu 0 0 0); try lia; auto.
  - intros; rewrite Hs; lia.
  - intros; rewrite Hd; lia.
  - intros; rewrite Hs; lia.
Qed.

Lemma checkThenFailOnError_state (c : @M BS W unit) t x t' evs :
  checkThenFailOnError (Some c) t = (x, t', evs) ->
  t' = snd (c t) /\ evs = [EvCheck].
Proof.
  unfold checkThenFailOnError.
  destruct (c t) as [[[]|r] t1]; cbn.
  - destruct (failOnError_cases t1) as [[_ ->]|[_ ->]];
      intros [= <- <- <-]; auto.
  - intros [= <- <- <-]; auto.
Qed.

Lemma Repeat_loop_measure sm c (mu : @T BS W -> Z) :
  (forall t s', mu (set_s t s') = mu t) ->
  (forall t l, mu (snd (Draw (actions sm) t l)) = mu t) ->
  (forall t l a t', Draw (actions sm) t l = (Ret a, t') ->
                    forall u, mu (snd (Func a u)) = mu u) ->
  (forall t, mu (snd (c t)) = (mu t + 1)%Z) ->
  forall fuel (r : R) t,
    mu (tfinal (Repeat_loop sm (Some c) fuel r t))
    = (mu t
       + Z.of_nat (acceptedSteps
                     (events (Repeat_loop sm (Some c) fuel r t))))%Z.
Proof.
  intros Hs Hd Ha Hc.
  induction fuel as [|fuel IH]; intros r t; cbn [Repeat_loop].
  - cbn. lia.
  - destruct (more r (s t)) as [[[[|]|q] r1] s1];
      [|cbn; rewrite Hs; lia|cbn; rewrite Hs; lia].
    pose proof (executeAction_measure_kept sm mu Hs Hd Ha (set_s t s1)) as Pm.
    rewrite Hs in Pm. revert Pm.
    generalize (executeAction sm (set_s t s1)); intros o Pm.
    destruct (outcome o) as [[|]|q] eqn:E.
    + pose proof (Hc (final o)) as Pc.
      destruct (checkThenFailOnError (Some c) (final o))
        as [[[[]|q] t'] evs] eqn:CE;
        apply checkThenFailOnError_state in CE as [-> ->].
      * cbn [later tfinal events]. rewrite IH.
        unfold acceptedSteps. cbn. lia.
      * cbn. lia.
    + destruct (reject r1) as [[[]|q] r2].
      * cbn [later tfinal events]. rewrite IH.
        unfold acceptedSteps. cbn. lia.
      * cbn. lia.
    + cbn. lia.
Qed.

(** C6.  In a trial with a check function, [check] is called exactly once
    before the first step and exactly once after every step that returned
    [true], before the next step; it is not called after a step that
    returned [false] and was rejected, nor after a step that panicked,
    as the step that used up its tries does.

    The first conjunct reads this off the log.  The next two say what a
    call is: [check] is applied to the context that [Repeat] received,
    and after a step to the context the step left; when it panics the
    trial ends with that panic, and when it returns with no failure
    recorded the loop goes on from the context it left.  The last one
    counts the applications: a quantity of the context that every
    application of [check] advances by one, and that the stream, the
    draws and the bodies of the actions leave alone, has advanced at the
    end of the trial by one plus the number of steps that returned
    [true]. *)
Theorem check_once_per_successful_step fuel cfg
  (actions : @Generator BS W (@StateMachineAction BS W)) (c : @M BS W unit) t :
  (checksBeforeStep (events (Repeat (R := R) fuel cfg actions (Some c) t)) = 1
   /\ Forall (fun p => snd p = checksOwed (fst p))
        (checksAfterSteps
           (events (Repeat (R := R) fuel cfg actions (Some c) t))))
  /\ ((forall r t',
         c t = (Panic r, t') ->
         Repeat (R := R) fuel cfg actions (Some c) t
         = {| verdict := Some (Panic r); tfinal := t';
              events :=
                [EvNewRepeat (-1) (-1)
                   (if testing_Short cfg then Z.quot (flags_steps cfg) 2
                    else flags_steps cfg) "Repeat";
                 EvCheck] |})
      /\ (forall t',
            c t = (Ret tt, t') -> failed t' = ""%string ->
            Repeat (R := R) fuel cfg actions (Some c) t
            = later
                [EvNewRepeat (-1) (-1)
                   (if testing_Short cfg then Z.quot (flags_steps cfg) 2
                    else flags_steps cfg) "Repeat";
                 EvCheck]
                (Repeat_loop {| actions := actions |} (Some c) fuel
                   (newRepeat (-1) (-1)
                      (if testing_Short cfg then Z.quot (flags_steps cfg) 2
                       else flags_steps cfg) "Repeat")
                   t')))
  /\ (forall fuel' (rp r1 : R) t0 s1,
        more rp (s t0) = (Ret true, r1, s1) ->
        outcome (executeAction {| actions := actions |} (set_s t0 s1))
        = Ret true ->
        (forall r t',
            c (final (executeAction {| actions := actions |} (set_s t0 s1)))
            = (Panic r, t') ->
            Repeat_loop {| actions := actions |} (Some c) (S fuel') rp t0
            = {| verdict := Some (Panic r); tfinal := t';
                 events :=
                   [EvMore (Ret true);
                    EvStep (calls (executeAction {| actions := actions |}
                                     (set_s t0 s1))) (Ret true);
                    EvCheck] |})
        /\ (forall t',
              c (final (executeAction {| actions := actions |} (set_s t0 s1)))
              = (Ret tt, t') ->
              failed t' = ""%string ->
              Repeat_loop {| actions := actions |} (Some c) (S fuel') rp t0
              = later
                  [EvMore (Ret true);
                   EvStep (calls (executeAction {| actions := actions |}
                                    (set_s t0 s1))) (Ret true);
                   EvCheck]
                  (Repeat_loop {| actions := actions |} (Some c) fuel'
                     r1 t')))
  /\ (forall mu : @T BS W -> Z,
        (forall u s', mu (set_s u s') = mu u) ->
        (forall u l, mu (snd (Draw actions u l)) = mu u) ->
        (forall u l a u', Draw actions u l = (Ret a, u') ->
                          forall v, mu (snd (Func a v)) = mu v) ->
        (forall u, mu (snd (c u)) = (mu u + 1)%Z) ->
        mu (tfinal (Repeat (R := R) fuel cfg actions (Some c) t))
        = (mu t + 1
           + Z.of_nat
               (acceptedSteps
                  (events (Repeat (R := R) fuel cfg actions (Some c) t))))%Z).
Proof.
  split; [|split; [split|split]].
  - unfold Repeat.
    pose proof (checkThenFailOnError_events (Some c) t) as Q.
    destruct (checkThenFailOnError (Some c) t) as [[[[]|q] t'] evs];
      cbn in Q; subst evs; cbn.
    + match goal with
      | |- context [Repeat_loop ?sm _ _ ?r _] =>
          destruct (Repeat_loop_checks sm c fuel r t') as [B A]
      end.
      rewrite B. split; [reflexivity|exact A].
    + split; [reflexivity|constructor].
  - intros r t' C. unfold Repeat, checkThenFailOnError.
    rewrite C. reflexivity.
  - intros t' C F. unfold Repeat, checkThenFailOnError.
    rewrite C. destruct (failOnError_cases t') as [[_ ->]|[N _]];
      [reflexivity|contradiction].
  - intros fuel' rp r1 t0 s1 Mo O. split.
    + intros r t' C. cbn [Repeat_loop]. rewrite Mo, O.
      unfold checkThenFailOnError. rewrite C. reflexivity.
    + intros t' C F. cbn [Repeat_loop]. rewrite Mo, O.
      unfold checkThenFailOnError. rewrite C.
      destruct (failOnError_cases t') as [[_ ->]|[N _]];
        [reflexivity|contradiction].
  - intros mu Hs Hd Ha Hc. unfold Repeat.
    pose proof (Hc t) as Pc.
    destruct (checkThenFailOnError (Some c) t)
      as [[[[]|q] t'] evs] eqn:CE;
      apply checkThenFailOnError_state in CE as [-> ->].
    + cbn [later tfinal events].
      rewrite (@Repeat_loop_measure {| actions := actions |} c mu Hs Hd Ha Hc).
      rewrite Pc. reflexivity.
    + cbn [tfinal events]. rewrite Pc. cbn. lia.
Qed.

(** C7.  The step count handed to [newRepeat] is [flags.steps], or
    [flags.steps / 2] with Go's truncating division when
    [testing.Short()] holds; the trial depends on the configuration
    through that number only, and for a count that is not negative the
    halved budget is the floor of half the count.

    The repeat object that drives the loop is the one [newRepeat]
    returns for that number, whatever [newRepeat] is: once the initial
    check has passed, the trial is the loop run on
    [newRepeat (-1) (-1) budget "Repeat"], and the first answer in the
    log is the answer [repeat.more] gives for that object. *)
Theorem Repeat_step_budget fuel cfg
  (actions : @Generator BS W (@StateMachineAction BS W)) check t :
  let budget :=
    if testing_Short cfg then Z.quot (flags_steps cfg) 2
    else flags_steps cfg in
  hd_error (events (Repeat (R := R) fuel cfg actions check t))
  = Some (EvNewRepeat (-1) (-1) budget "Repeat")
  /\ Repeat (R := R) fuel cfg actions check t
     = Repeat (R := R) fuel {| flags_steps := budget; testing_Short := false |}
         actions check t
  /\ (testing_Short cfg = true -> (0 <= flags_steps cfg)%Z ->
      (2 * budget <= flags_steps cfg < 2 * budget + 2)%Z)
  /\ (forall t',
        match check with
        | Some c => c t = (Ret tt, t')
        | None => t' = t
        end ->
        failed t' = ""%string ->
        Repeat (R := R) fuel cfg actions check t
        = later
            (EvNewRepeat (-1) (-1) budget "Repeat"
               :: checkEvents (hasCheck check))
            (Repeat_loop {| actions := actions |} check fuel
               (newRepeat (-1) (-1) budget "Repeat") t')
        /\ (fuel <> 0 ->
            nth_error (events (Repeat (R := R) fuel cfg actions check t))
                      (S (List.length (checkEvents (hasCheck check))))
            = Some (EvMore
                      (fst (fst (more (newRepeat (-1) (-1) budget "Repeat")
                                      (s t'))))))).
Proof.
  intros budget. split; [|split; [|split]].
  - unfold Repeat.
    destruct (checkThenFailOnError check t) as [[[[]|q] t'] evs]; reflexivity.
  - reflexivity.
  - intros Sh Pos. subst budget. rewrite Sh.
    rewrite Z.quot_div_nonneg by lia.
    pose proof (Z.div_mod (flags_steps cfg) 2 ltac:(lia)).
    pose proof (Z.mod_pos_bound (flags_steps cfg) 2 ltac:(lia)). lia.
  - intros t' C F.
    assert (E : Repeat (R := R) fuel cfg actions check t
                = later
                    (EvNewRepeat (-1) (-1) budget "Repeat"
                       :: checkEvents (hasCheck check))
                    (Repeat_loop {| actions := actions |} check fuel
                       (newRepeat (-1) (-1) budget "Repeat") t')).
    { unfold Repeat, checkThenFailOnError.
      destruct (failOnError_cases t') as [[_ E]|[N _]]; [|contradiction].
      destruct check as [c|]; [rewrite C|subst t']; rewrite E; reflexivity. }
    split; [exact E|].
    intros NZ. rewrite E. destruct fuel as [|fuel']; [contradiction|].
    cbn [later events Repeat_loop].
    generalize (executeAction {| actions := actions |}).
    intros ex.
    destruct (more (newRepeat (-1) (-1) budget "Repeat") (s t'))
      as [[[[|]|q] r1] s1]; cbn [fst].
    + destruct (outcome (ex (set_s t' s1))) as [[|]|q].
      * destruct (checkThenFailOnError check (ex (set_s t' s1)).(final))
          as [[[[]|q] t2] evs];
          destruct (hasCheck check); reflexivity.
      * destruct (reject r1) as [[[]|q] r2];
          destruct (hasCheck check); reflexivity.
      * destruct (hasCheck check); reflexivity.
    + destruct (hasCheck check); reflexivity.
    + destruct (hasCheck check); reflexivity.
Qed.

(** ** StateMachineActions *)

Lemma skipn_nth_error {A : Type} (l : list A) i x :
  nth_error l i = Some x -> skipn i l = x :: skipn (S i) l.
Proof.
  revert i; induction l as [|y l IH]; intros [|i]; cbn; try discriminate.
  - now intros [= ->].
  - intros E. now rewrite (IH _ E).
Qed.

Lemma collectActions_actionsOf (v : @object BS W) k :
  forall i acc,
    k = List.length (methods v) - i ->
    collectActions v k i acc = acc ++ actionsOf (skipn i (methods v)).
Proof.
  induction k as [|k IH]; intros i acc E; cbn [collectActions].
  - rewrite skipn_all2 by lia. cbn. now rewrite app_nil_r.
  - destruct (nth_error (methods v) i) as [mi|] eqn:N.
    + rewrite (skipn_nth_error _ _ N). cbn [actionsOf].
      destruct (methodFunc mi) as [f|typ]; cbn [asAction].
      * rewrite IH by lia. now rewrite <- app_assoc.
      * apply IH; lia.
    + apply nth_error_None in N. lia.
Qed.

Lemma actionsOf_filter (ms : list (@method BS W)) :
  map methodOf (actionsOf ms) = filter hasActionSignature ms.
Proof.
  induction ms as [|[n [f|typ]] ms IH]; cbn; auto.
  unfold hasActionSignature; cbn. now rewrite IH.
Qed.

Lemma actionsOf_nil (ms : list (@method BS W)) :
  actionsOf ms = [] <->
  forall m, In m ms -> hasActionSignature m = false.
Proof.
  induction ms as [|[n [f|typ]] ms IH]; cbn.
  - split; auto. intros _ m [].
  - split; [discriminate|]. intros A.
    specialize (A _ (or_introl eq_refl)). discriminate A.
  - rewrite IH. split.
    + intros A m [<-|I]; auto.
    + intros A m I. apply A. now right.
Qed.

Lemma StateMachineActions_eq (v : @object BS W) :
  StateMachineActions SampledFrom (Some v)
  = match actionsOf (methods v) with
    | [] => Panic (otherPanic ("state machine of type " ++ typeName v
                               ++ " has no actions specified"))
    | _ :: _ => Ret (SampledFrom (actionsOf (methods v)))
    end.
Proof.
  unfold StateMachineActions.
  rewrite collectActions_actionsOf by lia. cbn [skipn app].
  now destruct (actionsOf (methods v)).
Qed.

(** C8.  For an object none of whose methods has the action signature,
    [StateMachineActions] panics with the message of its assertion instead
    of returning a generator, and so does it for the nil interface, which
    has no methods; whenever it returns, the generator samples from a
    slice that is not empty.  The function takes no trial context: it is
    evaluated, and fails, before [Repeat] can run a step with its
    result. *)
Theorem no_actions_rejected :
  (forall v : @object BS W,
      (forall m, In m (methods v) -> hasActionSignature m = false) ->
      StateMachineActions SampledFrom (Some v)
      = Panic (otherPanic ("state machine of type " ++ typeName v
                           ++ " has no actions specified")))
  /\ (exists msg,
        StateMachineActions SampledFrom None = Panic (otherPanic msg))
  /\ (forall (obj : option (@object BS W)) g,
        StateMachineActions SampledFrom obj = Ret g ->
        exists slice, slice <> [] /\ g = SampledFrom slice).
Proof.
  split; [|split].
  - intros v A. rewrite StateMachineActions_eq.
    apply actionsOf_nil in A. now rewrite A.
  - eexists. reflexivity.
  - intros [v|] g; [|discriminate].
    rewrite StateMachineActions_eq.
    destruct (actionsOf (methods v)) as [|a l] eqn:E; [discriminate|].
    intros [= <-]. exists (a :: l). split; [discriminate|reflexivity].
Qed.

(** C10.  For an object with at least one method of the action
    signature, [StateMachineActions] returns, without a panic, the
    generator that samples from the actions made of exactly the methods
    whose value has the type [func(t *T)], under their method names and in
    the order of the reflected methods; the other methods are left
    out. *)
Theorem StateMachineActions_discovers (v : @object BS W) :
  (exists m, In m (methods v) /\ hasActionSignature m = true) ->
  StateMachineActions SampledFrom (Some v)
  = Ret (SampledFrom (actionsOf (methods v)))
  /\ map methodOf (actionsOf (methods v))
     = filter hasActionSignature (methods v).
Proof.
  intros (m & I & A). split; [|apply actionsOf_filter].
  rewrite StateMachineActions_eq.
  destruct (actionsOf (methods v)) eqn:E; [|reflexivity].
  rewrite (proj1 (actionsOf_nil _) E _ I) in A. discriminate A.
Qed.

End ExecutorFacts.

(** * The executor on the small engine *)

(** A catalog of one action that always signals, before any draw, that it
    does not apply: every one of the 100 attempts is such a skip, and the
    step ends with the no-valid-action panic.  So it is not the case that
    attempts which consumed no entropy are left out of the count of
    tries and never lead to that failure. *)
Lemma free_skips_exhaust_tries :
  ~ (freeSkips (calls (executeAction skipOnly (freshCtx 100)))
     = attempts (calls (executeAction skipOnly (freshCtx 100))) ->
     outcome (executeAction skipOnly (freshCtx 100))
     <> Panic (stopTest noValidActionsMsg)).
Proof.
  intros C. apply C; vm_compute; reflexivity.
Qed.

Example free_skips_exhaust_tries_run :
  freeSkips (calls (executeAction skipOnly (freshCtx 100))) = 100
  /\ attempts (calls (executeAction skipOnly (freshCtx 100))) = 100
  /\ outcome (executeAction skipOnly (freshCtx 100))
     = Panic (stopTest "can't find a valid (non-skipped) action").
Proof. vm_compute. auto. Qed.

Lemma free_skip_counts_against_tries_witness :
  let t := freshCtx 5 in
  let i := fst (beginGroup (s t) actionLabel false) in
  let s1 := snd (beginGroup (s t) actionLabel false) in
  let t2 := snd (Draw (actions skipOnly) (set_s t s1) "action") in
  let t3 := snd (Func skipNow t2) in
  (Func skipNow t2 = (Panic (invalidData "skip"), t3)
   /\ draws t3 = draws t2)
  /\ executeAction_loop skipOnly 3 t
     = after (skippedAttempt i (Name skipNow))
             (executeAction_loop skipOnly 2
                (set_s t3 (endGroup (s t3) i false))).
Proof.
  intros t i s1 t2 t3. split; [split; reflexivity|].
  apply (proj1 (@free_skip_counts_against_tries tape _ nat skipOnly)
               2 t i s1 skipNow t2 "skip"%string t3); reflexivity.
Defined.

(** A catalog of one action that always makes one draw and then signals
    that it does not apply: the step makes one attempt and returns
    [false]; it does not make 100 attempts and it does not end with the
    no-valid-action panic. *)
Lemma costly_skip_is_not_retried :
  ~ (attempts (calls (executeAction drawThenSkipOnly (freshCtx 200))) = 100
     /\ outcome (executeAction drawThenSkipOnly (freshCtx 200))
        = Panic (stopTest noValidActionsMsg)).
Proof.
  intros [A _]. vm_compute in A. discriminate A.
Qed.

Example costly_skip_is_not_retried_run :
  calls (executeAction drawThenSkipOnly (freshCtx 200))
  = [CallBeginGroup "action" false 0; CallDraw "action" (Ret "DrawThenSkip"%string);
     CallRunAction "DrawThenSkip" (Ret (true, false)); CallEndGroup 0 false]
  /\ outcome (executeAction drawThenSkipOnly (freshCtx 200)) = Ret false.
Proof. vm_compute. auto. Qed.

Lemma costly_skip_rejects_step_witness :
  let t := freshCtx 5 in
  let i := fst (beginGroup (s t) actionLabel false) in
  let s1 := snd (beginGroup (s t) actionLabel false) in
  let t2 := snd (Draw (actions drawThenSkipOnly) (set_s t s1) "action") in
  let t3 := snd (Func drawThenSkip t2) in
  (Func drawThenSkip t2 = (Panic (invalidData "skip"), t3)
   /\ draws t3 <> draws t2)
  /\ executeAction_loop drawThenSkipOnly 3 t
     = {| outcome := Ret false;
          final := set_s t3 (endGroup (s t3) i false);
          calls := decidedAttempt i (Name drawThenSkip) true |}.
Proof.
  intros t i s1 t2 t3.
  split; [split; [reflexivity|vm_compute; discriminate]|].
  apply (proj1 (@costly_skip_rejects_step tape _ nat drawThenSkipOnly)
               2 t i s1 drawThenSkip t2 "skip"%string t3);
    [reflexivity|reflexivity|reflexivity|vm_compute; discriminate].
Defined.


Example executeAction_completes_after_skips :
  outcome (executeAction skipOrIncr (ctxOn [0; 0; 0; 1])) = Ret true
  /\ attempts (calls (executeAction skipOrIncr (ctxOn [0; 0; 0; 1]))) = 4
  /\ completions (calls (executeAction skipOrIncr (ctxOn [0; 0; 0; 1]))) = 1
  /\ sut (final (executeAction skipOrIncr (ctxOn [0; 0; 0; 1]))) = 1.
Proof. vm_compute. auto. Qed.


Example fatal_leaves_group_open_run :
  outcome (executeAction fatalOnly (freshCtx 1)) = Panic (stopTest "boom")
  /\ calls (executeAction fatalOnly (freshCtx 1))
     = [CallBeginGroup "action" false 0; CallDraw "action" (Ret "FatalNow"%string);
        CallRunAction "FatalNow" (Panic (stopTest "boom"))]
  /\ unclosed (s (final (executeAction fatalOnly (freshCtx 1)))) = [0%Z].
Proof. vm_compute. auto. Qed.

Lemma runAction_classification_witness :
  runAction (freshCtx 0) skipNow = (Ret (true, true), freshCtx 0)
  /\ (true = true -> true = true)
  /\ (true, true) <> (false, true)
  /\ (true = true <->
      (exists msg, Func skipNow (freshCtx 0)
                   = (Panic (invalidData msg), freshCtx 0))
      /\ draws (freshCtx 0) = draws (freshCtx 0)).
Proof.
  split; [reflexivity|].
  apply (@runAction_classification tape nat (freshCtx 0) skipNow
           true true (freshCtx 0)).
  reflexivity.
Defined.

Example runAction_after_draw :
  fst (runAction (freshCtx 1) drawThenSkip) = Ret (true, false)
  /\ fst (runAction (freshCtx 1) incr) = Ret (false, false)
  /\ fst (runAction (freshCtx 1) fatalNow) = Panic (stopTest "boom").
Proof. vm_compute. auto. Qed.


(** A trial of two wanted steps (four, halved): a step that succeeds
    after a skip, a step that is rejected, a step that succeeds, and the
    check that fails after it. *)
Example Repeat_events :
  let tr := Repeat (R := counter) 10
              {| flags_steps := 5; testing_Short := true |}
              (sampledFrom [skipNow; incr; drawThenSkip])
              (Some (atMost 1)) (ctxOn [0; 1; 2; 0; 1; 1; 1; 1]) in
  verdict tr = Some (Panic (stopTest "invariant"))
  /\ map (fun e => match e with EvStep _ r => EvStep [] r | _ => e end)
         (events tr)
     = [EvNewRepeat (-1) (-1) 2 "Repeat"; EvCheck;
        EvMore (Ret true); EvStep [] (Ret true); EvCheck;
        EvMore (Ret true); EvStep [] (Ret false); EvReject;
        EvMore (Ret true); EvStep [] (Ret true); EvCheck]
  /\ checksAfterSteps (events tr)
     = [(Ret true, 1); (Ret false, 0); (Ret true, 1)].
Proof. vm_compute. auto. Qed.

Lemma Repeat_step_budget_witness :
  (0 <= 7)%Z /\ (2 * Z.quot 7 2 <= 7 < 2 * Z.quot 7 2 + 2)%Z
  /\ Repeat (R := counter) 10 {| flags_steps := 7; testing_Short := true |}
       (sampledFrom [incr]) None (freshCtx 10)
     = later [EvNewRepeat (-1) (-1) 3 "Repeat"]
         (Repeat_loop incrOnly None 10 {| count := 0; wanted := 3 |}
            (freshCtx 10))
  /\ acceptedSteps
       (events (Repeat (R := counter) 10
                  {| flags_steps := 7; testing_Short := true |}
                  (sampledFrom [incr]) None (freshCtx 10)))
     = 3.
Proof.
  destruct (@Repeat_step_budget tape _ nat counter _ 10
              {| flags_steps := 7; testing_Short := true |}
              (sampledFrom [incr]) None (freshCtx 10))
    as (_ & _ & A & E).
  split; [lia|split; [apply A; [reflexivity|cbn; lia]|]].
  destruct (E (freshCtx 10) eq_refl eq_refl) as [E1 _].
  split; [exact E1|]. rewrite E1. vm_compute. reflexivity.
Defined.

Example Repeat_step_budget_negative :
  hd_error (events (Repeat (R := counter) 0
                      {| flags_steps := -3; testing_Short := true |}
                      (sampledFrom [incr]) None (freshCtx 0)))
  = Some (EvNewRepeat (-1) (-1) (-1) "Repeat").
Proof. reflexivity. Qed.

Lemma no_actions_rejected_witness :
  (forall m, In m (methods getterOnly) -> hasActionSignature m = false)
  /\ StateMachineActions sampledFrom (Some getterOnly)
     = Panic (otherPanic
                "state machine of type *main.getterOnly has no actions specified").
Proof.
  split; [intros m [<-|[]]; reflexivity|].
  apply (proj1 (@no_actions_rejected tape nat sampledFrom) getterOnly).
  intros m [<-|[]]; reflexivity.
Defined.

Lemma StateMachineActions_discovers_witness :
  (exists m, In m (methods counterMachine) /\ hasActionSignature m = true)
  /\ StateMachineActions sampledFrom (Some counterMachine)
     = Ret (sampledFrom [incr; skipNow])
  /\ map methodOf (actionsOf (methods counterMachine))
     = filter hasActionSignature (methods counterMachine).
Proof.
  split;
    [exists {| methodName := "Incr"; methodFunc := FuncOfT (Func incr) |};
     split; [right; left; reflexivity|reflexivity]|].
  apply (@StateMachineActions_discovers tape nat sampledFrom counterMachine).
  exists {| methodName := "Incr"; methodFunc := FuncOfT (Func incr) |}.
  split; [right; left; reflexivity|reflexivity].
Defined.

(** * Further properties of the driver, the executor and the catalog *)

Section MoreFacts.

Context {BS : Type} `{bitStream BS} {W : Type}.
Context {R : Type} `{repeatOps (BS := BS) R}.
Variable SampledFrom :
  list (@StateMachineAction BS W)
  -> @Generator BS W (@StateMachineAction BS W).

Implicit Types (t : @T BS W) (sm : @stateMachine BS W).
Implicit Types (action a : @StateMachineAction BS W).
Implicit Types (check : option (@M BS W unit)).

Lemma checkThenFailOnError_checkEvents check t :
  snd (checkThenFailOnError check t) = checkEvents (hasCheck check).
Proof.
  unfold checkThenFailOnError. destruct check as [c|]; [|reflexivity].
  now destruct (c t) as [[[]|r] t'].
Qed.

Lemma Repeat_loop_shape sm check fuel :
  forall (r : R) t,
    loopShape (hasCheck check)
              (events (Repeat_loop sm check fuel r t))
              (verdict (Repeat_loop sm check fuel r t)).
Proof.
  induction fuel as [|fuel IH]; intros r t; cbn [Repeat_loop].
  - constructor.
  - destruct (more r (s t)) as [[[[|]|q] r1] s1];
      [|apply loop_declined|apply loop_more_panicked].
    generalize (executeAction sm (set_s t s1)); intros o.
    destruct (outcome o) as [[|]|q] eqn:E.
    + pose proof (checkThenFailOnError_checkEvents check (final o)) as Q.
      destruct (checkThenFailOnError check (final o))
        as [[[[]|q] t'] evs]; cbn in Q; subst evs;
        cbn [later events verdict].
      * rewrite <- app_assoc. apply loop_step_accepted, IH.
      * apply loop_check_panicked.
    + destruct (reject r1) as [[[]|q] r2]; cbn [later events verdict].
      * apply loop_step_rejected, IH.
      * apply loop_reject_panicked.
    + apply loop_step_panicked.
Qed.

(** What [Repeat] logs around its loop. *)
Lemma Repeat_shape fuel cfg
  (actions : @Generator BS W (@StateMachineAction BS W)) check t :
  exists steps evs,
    events (Repeat (R := R) fuel cfg actions check t)
    = EvNewRepeat (-1) (-1) steps "Repeat"
        :: checkEvents (hasCheck check) ++ evs
    /\ ((evs = []
         /\ exists r, verdict (Repeat (R := R) fuel cfg actions check t)
                      = Some (Panic r))
        \/ loopShape (hasCheck check) evs
             (verdict (Repeat (R := R) fuel cfg actions check t))).
Proof.
  unfold Repeat.
  pose proof (checkThenFailOnError_checkEvents check t) as Q.
  destruct (checkThenFailOnError check t) as [[[[]|q] t'] evs];
    cbn in Q; subst evs; cbn [later events verdict].
  - eexists. eexists. split; [reflexivity|]. right. apply Repeat_loop_shape.
  - eexists. exists []. split; [now rewrite app_nil_r|].
    left. split; [reflexivity|now exists q].
Qed.

Lemma loopShape_unchecked evs v :
  loopShape false evs v -> ~ In EvCheck evs.
Proof.
  induction 1 as [|r| |cs r|cs evs v _ IH|cs r|cs evs v _ IH|cs r];
    cbn; intros HI; try (intuition discriminate).
Qed.



(** X1.  Without a check function ([check == nil]) a trial never calls
    a check: its log has no check event, whatever the steps do. *)
Theorem Repeat_without_check_never_checks fuel cfg
  (actions : @Generator BS W (@StateMachineAction BS W)) t :
  ~ In EvCheck (events (Repeat (R := R) fuel cfg actions None t)).
Proof.
  destruct (Repeat_shape fuel cfg actions None t)
    as (steps & evs & -> & [[-> _]|L]); cbn.
  - intros [D|[]]; discriminate D.
  - intros [D|HI]; [discriminate D|].
    exact (loopShape_unchecked L HI).
Qed.



(** X4.  When the context holds a recorded failure after the initial
    check returned (or at the start, without a check function), [Repeat]
    panics with that failure before it asks [repeat.more] for a first
    step: no step runs. *)
Theorem pending_failure_stops_before_first_step fuel cfg
  (actions : @Generator BS W (@StateMachineAction BS W)) check t t' :
  match check with
  | Some c => c t = (Ret tt, t')
  | None => t' = t
  end ->
  failed t' <> ""%string ->
  verdict (Repeat (R := R) fuel cfg actions check t)
  = Some (Panic (stopTest (failed t')))
  /\ tfinal (Repeat (R := R) fuel cfg actions check t) = t'
  /\ exists steps,
      events (Repeat (R := R) fuel cfg actions check t)
      = EvNewRepeat (-1) (-1) steps "Repeat"
          :: checkEvents (hasCheck check).
Proof.
  intros C F. unfold Repeat, checkThenFailOnError.
  destruct (failOnError_cases t') as [[F' _]|[_ E]]; [contradiction|].
  destruct check as [c|]; [rewrite C|subst t']; rewrite E; cbn;
    (split; [reflexivity|split; [reflexivity|eexists; reflexivity]]).
Qed.

(** ** A step and the failure accumulator *)

Lemma runAction_completed t a t' :
  Func a t = (Ret tt, t') -> failed t' = ""%string ->
  runAction t a = (Ret (false, false), t').
Proof.
  intros E F. unfold runAction, bind, ret. rewrite E.
  destruct (failOnError_cases t') as [[_ ->]|[N _]]; [reflexivity|].
  contradiction.
Qed.

Lemma runAction_recorded_failure t a t' :
  Func a t = (Ret tt, t') -> failed t' <> ""%string ->
  runAction t a = (Panic (stopTest (failed t')), t').
Proof.
  intros E F. unfold runAction, bind, ret. rewrite E.
  destruct (failOnError_cases t') as [[N _]|[_ ->]]; [contradiction|].
  reflexivity.
Qed.

Lemma runAction_valid_no_failure t a skipped t' :
  runAction t a = (Ret (false, skipped), t') -> failed t' = ""%string.
Proof.
  intros E. pose proof (runActionP t a) as P. rewrite E in P.
  inversion P; auto.
Qed.

Lemma executeAction_loop_true_no_failure sm tries :
  forall t,
    outcome (executeAction_loop sm tries t) = Ret true ->
    failed (final (executeAction_loop sm tries t)) = ""%string.
Proof.
  induction tries as [|tries IH]; intros t; cbn [executeAction_loop].
  - discriminate.
  - destruct (beginGroup (s t) actionLabel false) as [i s1].
    destruct (Draw (actions sm) (set_s t s1) "action") as [[a|r] t2];
      [|discriminate].
    destruct (runAction t2 a) as [[[invalid skipped]|r] t3] eqn:E;
      [|discriminate].
    destruct skipped; cbn [after outcome final].
    + apply IH.
    + destruct invalid; [discriminate|]. intros _.
      exact (runAction_valid_no_failure _ _ E).
Qed.

(** X5.  A step and the recorded failures.  When the action of an
    attempt returns with no failure recorded in the context, the step
    ends at once with [true], after [endGroup], however many tries are
    left.  When it returns with a failure recorded, the step panics with
    that failure as a [stopTest] and the group stays open.  So whenever
    [executeAction] returns [true], the context holds no recorded
    failure. *)
Theorem completed_action_ends_step sm :
  (forall tries t i s1 a t2 t3,
      beginGroup (s t) actionLabel false = (i, s1) ->
      Draw (actions sm) (set_s t s1) "action" = (Ret a, t2) ->
      Func a t2 = (Ret tt, t3) ->
      (failed t3 = ""%string ->
       executeAction_loop sm (S tries) t
       = {| outcome := Ret true;
            final := set_s t3 (endGroup (s t3) i false);
            calls := decidedAttempt i (Name a) false |})
      /\ (failed t3 <> ""%string ->
          executeAction_loop sm (S tries) t
          = {| outcome := Panic (stopTest (failed t3));
               final := t3;
               calls := fatalAttempt i (Name a) (stopTest (failed t3)) |}))
  /\ (forall t,
        outcome (executeAction sm t) = Ret true ->
        failed (final (executeAction sm t)) = ""%string).
Proof.
  split.
  - intros tries t i s1 a t2 t3 B D F. split; intros E;
      cbn [executeAction_loop]; rewrite B, D.
    + now rewrite (runAction_completed _ _ F E).
    + now rewrite (runAction_recorded_failure _ _ F E).
  - intros t. apply executeAction_loop_true_no_failure.
Qed.

(** ** The calls of a step, counted *)

Lemma shape_calls tries cs r :
  stepShape tries cs r ->
  drawCalls cs = attempts cs
  /\ endCalls cs = freeSkips cs + costlySkips cs + completions cs.
Proof.
  induction 1 as [|tries i name cs r _ [D E]
                  |tries i name [|]|tries i name r I|tries i r];
    cbn; auto.
Qed.

(** X6.  The engine sees one [beginGroup] and one [Draw] for every
    attempt of a step, and one [endGroup] for every attempt on which
    [runAction] returned: a quantity of the context that these calls
    advance by [wb], [wd] and [we], and that the bodies of the actions of
    the generator leave alone, advances over the step by [wb] and [wd]
    times the number of attempts and by [we] times the number of
    attempts that were skipped, rejected or completed. *)
Theorem executeAction_calls_counted sm (mu : @T BS W -> Z) (wb wd we : Z) :
  (forall u l b, mu (set_s u (snd (beginGroup (s u) l b))) = (mu u + wb)%Z) ->
  (forall u l, mu (snd (Draw (actions sm) u l)) = (mu u + wd)%Z) ->
  (forall u l a u', Draw (actions sm) u l = (Ret a, u') ->
                    forall v, mu (snd (Func a v)) = mu v) ->
  (forall u i d, mu (set_s u (endGroup (s u) i d)) = (mu u + we)%Z) ->
  forall t,
    mu (final (executeAction sm t))
    = (mu t
       + wb * Z.of_nat (attempts (calls (executeAction sm t)))
       + wd * Z.of_nat (attempts (calls (executeAction sm t)))
       + we * Z.of_nat (freeSkips (calls (executeAction sm t))
                        + costlySkips (calls (executeAction sm t))
                        + completions (calls (executeAction sm t))))%Z.
Proof.
  intros Hb Hd Ha He t.
  destruct (shape_calls (executeAction_shape sm t)) as [D E].
  rewrite <- D at 2. rewrite <- E.
  exact (@executeAction_loop_measure _ _ _ sm mu wb wd we Hb Hd Ha He
           validActionTries t).
Qed.

(** ** The bound on the tries *)

(** X7.  The bound on the tries matters only to a step that reaches it:
    when the loop, given [tries] iterations, skipped fewer than [tries]
    attempts, it makes the same calls, ends with the same result and
    leaves the same context if it is given more iterations. *)
Theorem more_tries_same_step sm tries k :
  forall t,
    freeSkips (calls (executeAction_loop sm tries t)) < tries ->
    executeAction_loop sm (tries + k) t = executeAction_loop sm tries t.
Proof.
  induction tries as [|tries IH]; intros t.
  - cbn. lia.
  - cbn [executeAction_loop Nat.add].
    destruct (beginGroup (s t) actionLabel false) as [i s1].
    destruct (Draw (actions sm) (set_s t s1) "action") as [[a|r] t2];
      [|reflexivity].
    destruct (runAction t2 a) as [[[invalid skipped]|r] t3] eqn:E;
      [|reflexivity].
    destruct skipped; [|reflexivity].
    apply runAction_skipped_invalid in E as ->.
    cbn [after calls]. intros L.
    change (freeSkips (skippedAttempt i (Name a)
                         ++ calls (executeAction_loop sm tries
                                     (set_s t3 (endGroup (s t3) i false))))
            < S tries) in L.
    rewrite freeSkips_skipped in L.
    rewrite IH by lia. reflexivity.
Qed.

(** ** The names in the catalog *)

Lemma actionsOf_names (ms : list (@method BS W)) :
  map ActionName (actionsOf ms)
  = map methodName (filter hasActionSignature ms).
Proof.
  induction ms as [|[n [f|typ]] ms IH]; cbn; auto.
  unfold hasActionSignature; cbn. now rewrite IH.
Qed.

Lemma actionsOf_length (ms : list (@method BS W)) :
  List.length (actionsOf ms) <= List.length ms.
Proof.
  induction ms as [|[n [f|typ]] ms IH]; cbn; lia.
Qed.

Lemma actionsOf_of_filter (ms : list (@method BS W)) :
  actionsOf (filter hasActionSignature ms) = actionsOf ms.
Proof.
  induction ms as [|[n [f|typ]] ms IH]; [reflexivity| |exact IH].
  change (actionsOf ({| methodName := n; methodFunc := FuncOfT f |}
                       :: filter hasActionSignature ms)
          = actionsOf ({| methodName := n; methodFunc := FuncOfT f |} :: ms)).
  cbn [actionsOf methodFunc]. now rewrite IH.
Qed.

(** X8.  Whenever [StateMachineActions] returns a generator, it samples
    from a slice whose actions answer [ActionName] with the names of the
    methods of the action signature, in method order, and which has at
    most as many actions as the object has methods. *)
Theorem discovered_action_names (v : @object BS W) g :
  StateMachineActions SampledFrom (Some v) = Ret g ->
  exists slice,
    g = SampledFrom slice
    /\ map ActionName slice
       = map methodName (filter hasActionSignature (methods v))
    /\ 1 <= List.length slice <= List.length (methods v).
Proof.
  rewrite StateMachineActions_eq.
  destruct (actionsOf (methods v)) as [|a l] eqn:E; [discriminate|].
  intros [= <-]. exists (a :: l). rewrite <- E.
  split; [reflexivity|split; [apply actionsOf_names|]].
  split; [rewrite E; cbn; lia|apply actionsOf_length].
Qed.

(** X9.  Methods of another signature do not change the catalog: two
    objects of the same type name whose methods of the action signature
    are the same, in the same order, get the same result from
    [StateMachineActions]. *)
Theorem other_methods_do_not_matter (v v' : @object BS W) :
  typeName v = typeName v' ->
  filter hasActionSignature (methods v)
  = filter hasActionSignature (methods v') ->
  StateMachineActions SampledFrom (Some v)
  = StateMachineActions SampledFrom (Some v').
Proof.
  intros N F. rewrite !StateMachineActions_eq.
  rewrite <- (actionsOf_of_filter (methods v)), F, actionsOf_of_filter, N.
  reflexivity.
Qed.

End MoreFacts.

(** * The further properties on the small engine *)

Example Repeat_without_check_run :
  map (fun e => match e with EvStep _ r => EvStep [] r | _ => e end)
      (events (Repeat (R := counter) 10
                 {| flags_steps := 2; testing_Short := false |}
                 (sampledFrom [incr; drawThenSkip]) None
                 (ctxOn [0; 1; 2; 0; 0; 0])))
  = [EvNewRepeat (-1) (-1) 2 "Repeat";
     EvMore (Ret true); EvStep [] (Ret true);
     EvMore (Ret true); EvStep [] (Ret false); EvReject;
     EvMore (Ret true); EvStep [] (Ret true);
     EvMore (Ret false)].
Proof. vm_compute. reflexivity. Qed.


Lemma pending_failure_stops_before_first_step_witness :
  (recordFailure (freshCtx 3) = (Ret tt, snd (recordFailure (freshCtx 3)))
   /\ failed (snd (recordFailure (freshCtx 3))) <> ""%string)
  /\ verdict (Repeat (R := counter) 10
                {| flags_steps := 4; testing_Short := false |}
                (sampledFrom [incr]) (Some recordFailure) (freshCtx 3))
     = Some (Panic (stopTest "bad state"))
  /\ events (Repeat (R := counter) 10
               {| flags_steps := 4; testing_Short := false |}
               (sampledFrom [incr]) (Some recordFailure) (freshCtx 3))
     = [EvNewRepeat (-1) (-1) 4 "Repeat"; EvCheck].
Proof.
  split; [split; [reflexivity|vm_compute; discriminate]|].
  destruct (@pending_failure_stops_before_first_step
              tape _ nat counter _ 10
              {| flags_steps := 4; testing_Short := false |}
              (sampledFrom [incr]) (Some recordFailure) (freshCtx 3)
              (snd (recordFailure (freshCtx 3))))
    as (V & _ & _); [reflexivity|vm_compute; discriminate|].
  split; [exact V|reflexivity].
Defined.

Lemma completed_action_ends_step_witness :
  let t := freshCtx 5 in
  let i := fst (beginGroup (s t) actionLabel false) in
  let s1 := snd (beginGroup (s t) actionLabel false) in
  let t2 := snd (Draw (actions incrOnly) (set_s t s1) "action") in
  let t3 := snd (Func incr t2) in
  let u2 := snd (Draw (actions failSoftOnly) (set_s t s1) "action") in
  let u3 := snd (Func failSoft u2) in
  (failed t3 = ""%string /\ failed u3 <> ""%string)
  /\ executeAction_loop incrOnly 3 t
     = {| outcome := Ret true;
          final := set_s t3 (endGroup (s t3) i false);
          calls := decidedAttempt i "Incr" false |}
  /\ executeAction_loop failSoftOnly 3 t
     = {| outcome := Panic (stopTest "bad state");
          final := u3;
          calls := fatalAttempt i "FailSoft" (stopTest "bad state") |}.
Proof.
  intros t i s1 t2 t3 u2 u3.
  split; [split; [reflexivity|vm_compute; discriminate]|split].
  - destruct (proj1 (@completed_action_ends_step tape _ nat incrOnly)
                    2 t i s1 incr t2 t3) as [P _];
      [reflexivity|reflexivity|reflexivity|].
    apply P. reflexivity.
  - destruct (proj1 (@completed_action_ends_step tape _ nat failSoftOnly)
                    2 t i s1 failSoft u2 u3) as [_ P];
      [reflexivity|reflexivity|reflexivity|].
    apply P. vm_compute; discriminate.
Defined.

Lemma more_tries_same_step_witness :
  freeSkips (calls (executeAction_loop skipOrIncr 10 (ctxOn [0; 0; 0; 1])))
  < 10
  /\ executeAction skipOrIncr (ctxOn [0; 0; 0; 1])
     = executeAction_loop skipOrIncr 10 (ctxOn [0; 0; 0; 1]).
Proof.
  assert (L : freeSkips (calls (executeAction_loop skipOrIncr 10
                                  (ctxOn [0; 0; 0; 1]))) < 10)
    by (vm_compute; lia).
  split; [exact L|].
  exact (@more_tries_same_step tape _ nat skipOrIncr 10 90
           (ctxOn [0; 0; 0; 1]) L).
Defined.

Lemma discovered_action_names_witness :
  StateMachineActions sampledFrom (Some counterMachine)
  = Ret (sampledFrom [incr; skipNow])
  /\ exists slice,
      sampledFrom [incr; skipNow] = sampledFrom slice
      /\ map ActionName slice = ["Incr"; "SkipNow"]%string
      /\ 1 <= List.length slice <= 3.
Proof.
  split; [reflexivity|].
  apply (@discovered_action_names tape nat sampledFrom counterMachine
           (sampledFrom [incr; skipNow])).
  reflexivity.
Defined.

Lemma other_methods_do_not_matter_witness :
  (typeName counterMachine = typeName counterMachineOther
   /\ filter hasActionSignature (methods counterMachine)
      = filter hasActionSignature (methods counterMachineOther))
  /\ StateMachineActions sampledFrom (Some counterMachine)
     = StateMachineActions sampledFrom (Some counterMachineOther).
Proof.
  split; [split; reflexivity|].
  apply (@other_methods_do_not_matter tape nat sampledFrom
           counterMachine counterMachineOther); reflexivity.
Defined.

Lemma drawBit_sut (u : ctx) : sut (snd (drawBit u)) = sut u.
Proof. unfold drawBit. now destruct (bits (s u)). Qed.

Lemma drawBit_begun (u : ctx) : begun (s (snd (drawBit u))) = begun (s u).
Proof. unfold drawBit. now destruct (bits (s u)). Qed.

Lemma sampledFrom_drawn slice (u : ctx) l a u' :
  Draw (sampledFrom slice) u l = (Ret a, u') ->
  In a slice /\ u' = snd (drawBit u).
Proof.
  cbn [Draw sampledFrom].
  destruct (drawBit u) as [[b|r] u1]; [|discriminate].
  destruct (nth_error slice (b mod List.length slice)) as [a'|] eqn:N;
    [|discriminate].
  intros [= <- <-]. split; [exact (nth_error_In _ _ N)|reflexivity].
Qed.

Lemma sampledFrom_state slice (u : ctx) l :
  snd (Draw (sampledFrom slice) u l) = snd (drawBit u).
Proof.
  cbn [Draw sampledFrom].
  destruct (drawBit u) as [[b|r] u1]; [|reflexivity].
  now destruct (nth_error slice (b mod List.length slice)).
Qed.

Lemma check_once_per_successful_step_witness :
  Z.of_nat (sut (tfinal (Repeat (R := counter) 10
                           {| flags_steps := 2; testing_Short := false |}
                           noopOrSkips (Some tick)
                           mixedCtx)))
  = (Z.of_nat 0 + 1
     + Z.of_nat (acceptedSteps
                   (events (Repeat (R := counter) 10
                              {| flags_steps := 2; testing_Short := false |}
                              noopOrSkips (Some tick)
                              mixedCtx))))%Z
  /\ acceptedSteps
       (events (Repeat (R := counter) 10
                  {| flags_steps := 2; testing_Short := false |}
                  noopOrSkips (Some tick) mixedCtx))
     = 2.
Proof.
  split; [|vm_compute; reflexivity].
  apply (proj2 (proj2 (proj2
           (@check_once_per_successful_step tape _ nat counter _ 10
              {| flags_steps := 2; testing_Short := false |}
              noopOrSkips tick mixedCtx)))
           (fun u => Z.of_nat (sut u))).
  - intros u s'. reflexivity.
  - intros u l. unfold noopOrSkips.
    now rewrite sampledFrom_state, drawBit_sut.
  - intros u l a u' D v. apply sampledFrom_drawn in D as [I _].
    destruct I as [<-|[<-|[<-|[]]]]; cbn [Func noop skipNow drawThenSkip snd];
      try reflexivity.
    pose proof (drawBit_sut v) as P.
    destruct (drawBit v) as [[b|r] v1]; cbn in P |- *; now rewrite P.
  - intros u. cbn. lia.
Defined.

Lemma executeAction_calls_counted_witness :
  begun (s (final (executeAction noopOrSkip skipsThenNoopCtx)))
  = (0 + 1 * Z.of_nat (attempts (calls (executeAction noopOrSkip
                                          skipsThenNoopCtx)))
     + 0 * Z.of_nat (attempts (calls (executeAction noopOrSkip
                                        skipsThenNoopCtx)))
     + 0 * Z.of_nat
           (freeSkips (calls (executeAction noopOrSkip skipsThenNoopCtx))
            + costlySkips (calls (executeAction noopOrSkip
                                    skipsThenNoopCtx))
            + completions (calls (executeAction noopOrSkip
                                    skipsThenNoopCtx))))%Z
  /\ attempts (calls (executeAction noopOrSkip skipsThenNoopCtx)) = 4.
Proof.
  split; [|vm_compute; reflexivity].
  apply (@executeAction_calls_counted tape _ nat noopOrSkip
           (fun u => begun (s u)) 1 0 0).
  - intros u l b. reflexivity.
  - intros u l. unfold noopOrSkip; cbn [actions].
    rewrite sampledFrom_state, drawBit_begun. lia.
  - intros u l a u' D v. unfold noopOrSkip in D; cbn [actions] in D.
    apply sampledFrom_drawn in D as [I _].
    destruct I as [<-|[<-|[]]]; reflexivity.
  - intros u i d. cbn. lia.
Defined.
